(** * libgcc/config/sh/sfp-exceptions.c

    A shallow embedding of [__sfp_handle_exceptions], the SH routine that
    raises, on the hardware FPU, the IEEE exceptions which the soft-float
    layer has detected.  The routine is a sequence of guarded
    [__asm__ __volatile__] statements; the embedding keeps each statement
    (template, operands, guard, preprocessor conditional) and runs it on a
    small model of the FPU status register. *)

From Stdlib Require Import ZArith List Bool Lia.
From Stdlib Require Import Floats.FloatClass Floats.SpecFloat.
Import ListNotations.
Local Open Scope Z_scope.

(** ** Exception kinds and sets of kinds *)

Inductive exn := Inexact | Underflow | Overflow | DivZero | Invalid.

Definition exn_eqb (a b : exn) : bool :=
  match a, b with
  | Inexact, Inexact | Underflow, Underflow | Overflow, Overflow
  | DivZero, DivZero | Invalid, Invalid => true
  | _, _ => false
  end.

(** The five fields of an FPSCR group (enable, flag or cause), one bit per
    kind. *)
Record exn_set := ExnSet {
  has_inexact : bool;
  has_underflow : bool;
  has_overflow : bool;
  has_divzero : bool;
  has_invalid : bool
}.

Definition mem (k : exn) (s : exn_set) : bool :=
  match k with
  | Inexact => has_inexact s
  | Underflow => has_underflow s
  | Overflow => has_overflow s
  | DivZero => has_divzero s
  | Invalid => has_invalid s
  end.

Definition of_pred (p : exn -> bool) : exn_set :=
  ExnSet (p Inexact) (p Underflow) (p Overflow) (p DivZero) (p Invalid).

Definition empty : exn_set := of_pred (fun _ => false).
Definition full : exn_set := of_pred (fun _ => true).
Definition singleton (k : exn) : exn_set := of_pred (exn_eqb k).
Definition union (a b : exn_set) : exn_set :=
  of_pred (fun k => mem k a || mem k b).
Definition inter (a b : exn_set) : exn_set :=
  of_pred (fun k => mem k a && mem k b).
Definition is_empty (a : exn_set) : bool :=
  negb (has_inexact a || has_underflow a || has_overflow a
        || has_divzero a || has_invalid a).

(** ** C operands and inline assembly statements *)

Inductive ctype := Tdouble | Tlong_double.

(** The initialisers that occur in the routine.  [Lit n] is a decimal
    constant of integral value [n] ([1.0], [3.0], [0.0], [10]). *)
Inductive init :=
  | Lit (n : Z)
  | __LDBL_MIN__
  | __LDBL_MAX__
  | __builtin_huge_val.

(** [#define HUGE_VAL (__builtin_huge_val ())] *)
Definition HUGE_VAL : init := __builtin_huge_val.

Record operand := Operand { op_type : ctype; op_init : init }.

Inductive mnemonic := fdiv | fmul.

(** A place holder of an assembler template: [%0] or [%1]. *)
Inductive placeholder := P0 | P1.

(** [__asm__ __volatile__ ("<mnem> <frm>, <frn>" : "+d" (arg0) : "d" (arg1))] *)
Record asm := Asm {
  mnem : mnemonic;
  frm : placeholder;
  frn : placeholder;
  arg0 : operand;
  arg1 : operand
}.

Definition placed (p : placeholder) (i : asm) : operand :=
  match p with P0 => arg0 i | P1 => arg1 i end.

(** SH: [fdiv FRm,FRn] computes FRn / FRm and [fmul FRm,FRn] computes
    FRn * FRm, both into FRn. *)
Definition lhs (i : asm) : operand := placed (frn i) i.
Definition rhs (i : asm) : operand := placed (frm i) i.

(** ** Values of the operands

    The ["d"] constraint places every operand in a double-precision
    register pair, so on this target [long double] has the format of
    [double]: IEEE binary64. *)
Definition mant_dig (t : ctype) : Z :=
  match t with Tdouble => 53 | Tlong_double => 53 end.
Definition max_exp (t : ctype) : Z :=
  match t with Tdouble => 1024 | Tlong_double => 1024 end.

(** Modelled from the spec: the compiler's predefined [__LDBL_MIN__] (the
    smallest representable normal value), [__LDBL_MAX__] (the largest
    representable value) and [__builtin_huge_val ()] (positive infinity)
    are not in the source file; a decimal constant denotes its correctly
    rounded value. *)
Definition value (o : operand) : spec_float :=
  let p := mant_dig (op_type o) in
  let e := max_exp (op_type o) in
  match op_init o with
  | Lit n => binary_normalize p e n 0 false
  | __LDBL_MIN__ =>
      S754_finite false (Pos.iter xO xH (Z.to_pos (p - 1))) (emin p e)
  | __LDBL_MAX__ => SFmax_float p e
  | __builtin_huge_val => S754_infinity false
  end.

(** The value the instruction computes into FRn. *)
Definition result (i : asm) : spec_float :=
  let p := mant_dig (op_type (lhs i)) in
  let e := max_exp (op_type (lhs i)) in
  match mnem i with
  | fdiv => SFdiv p e (value (lhs i)) (value (rhs i))
  | fmul => SFmul p e (value (lhs i)) (value (rhs i))
  end.

Definition is_nan (x : spec_float) : bool :=
  match x with S754_nan => true | _ => false end.
Definition is_inf (x : spec_float) : bool :=
  match x with S754_infinity _ => true | _ => false end.
Definition is_zero (x : spec_float) : bool :=
  match x with S754_zero _ => true | _ => false end.
Definition is_nonzero_finite (x : spec_float) : bool :=
  match x with S754_finite _ _ _ => true | _ => false end.
Definition is_normal (p : Z) (x : spec_float) : bool :=
  match x with
  | S754_finite _ m _ => Zpos (digits2_pos m) =? p
  | _ => false
  end.

(** [m1 * 2^e1 = m2 * 2^e2], on integers. *)
Definition same_dyadic (m1 e1 m2 e2 : Z) : bool :=
  let e := Z.min e1 e2 in
  m1 * 2 ^ (e1 - e) =? m2 * 2 ^ (e2 - e).

(** Whether the delivered result of an operation on nonzero finite
    operands is the mathematical one. *)
Definition exact (i : asm) : bool :=
  match value (lhs i), value (rhs i), result i with
  | S754_finite _ ma ea, S754_finite _ mb eb, S754_finite _ mr er =>
      match mnem i with
      | fdiv => same_dyadic (Zpos mr * Zpos mb) (er + eb) (Zpos ma) ea
      | fmul => same_dyadic (Zpos mr) er (Zpos ma * Zpos mb) (ea + eb)
      end
  | _, _, _ => false
  end.

(** Modelled from the spec: the condition an operation provokes, after the
    table of per-kind techniques: infinity times zero is invalid; a nonzero
    finite value divided by zero is a division by zero; a result above the
    representable range is an overflow; a result below the normal range is
    an underflow; a result that is not exactly representable is inexact.
    Each operation provokes one condition, the first that applies. *)
Definition ieee_condition (i : asm) : option exn :=
  let a := value (lhs i) in
  let b := value (rhs i) in
  let r := result i in
  if is_nan a || is_nan b then None
  else if is_nan r then Some Invalid
  else if is_nonzero_finite a && is_zero b then
    match mnem i with fdiv => Some DivZero | fmul => None end
  else if is_nonzero_finite a && is_nonzero_finite b then
    if is_inf r then Some Overflow
    else if exact i then None
    else if is_normal (mant_dig (op_type (lhs i))) r then Some Inexact
    else Some Underflow
  else None.

Definition ieee_raises (i : asm) : exn_set :=
  match ieee_condition i with
  | Some k => singleton k
  | None => empty
  end.


(** ** The FPU status register and the execution monad *)

(** Modelled from the spec: the FPSCR as far as the routine touches it.
    [enable] holds the kinds whose trap is enabled, [flag] the sticky status
    flags; [executed] logs the instructions issued so far, oldest first. *)
Record fpu := Fpu {
  enable : exn_set;
  flag : exn_set;
  executed : list asm
}.

(** A computation either returns to its caller or is diverted by a trap
    whose cause is the set of conditions the trapping instruction raised. *)
Inductive outcome (A : Type) :=
  | Returned (a : A) (s : fpu)
  | Trapped (cause : exn_set) (s : fpu).
Arguments Returned {A} a s.
Arguments Trapped {A} cause s.

Definition M (A : Type) : Type := fpu -> outcome A.

Definition ret {A} (a : A) : M A := fun s => Returned a s.

Definition bind {A B} (m : M A) (f : A -> M B) : M B :=
  fun s =>
    match m s with
    | Returned a s' => f a s'
    | Trapped c s' => Trapped c s'
    end.

Notation "m1 ;; m2" := (bind m1 (fun _ => m2))
  (at level 61, right associativity).

Definition final {A} (o : outcome A) : fpu :=
  match o with Returned _ s => s | Trapped _ s => s end.

Definition trap_cause {A} (o : outcome A) : option exn_set :=
  match o with Returned _ _ => None | Trapped c _ => Some c end.

Definition returns {A} (o : outcome A) : bool :=
  match o with Returned _ _ => true | Trapped _ _ => false end.

(** [#ifdef] / [#if]: the body is compiled in or left out. *)
Definition ifdef (defined : bool) (body : M unit) : M unit :=
  if defined then body else ret tt.

(** [if (c) body], for an integer condition. *)
Definition c_if (c : Z) (body : M unit) : M unit :=
  if c =? 0 then ret tt else body.

(** Preprocessor configuration of the target. *)
Record config := Config {
  __SH_FPU_ANY__ : bool;
  __SH2E__ : bool
}.

Definition full_fpu : config := Config true false.
Definition reduced_fpu : config := Config true true.
Definition no_fpu (sh2e : bool) : config := Config false sh2e.

(** ** The asm statement of each block, with its local declarations *)

(** [double d = 1.0, x = 3.0; asm ("fdiv %1, %0" : "+d" (d) : "d" (x));] *)
Definition raise_inexact : asm :=
  let d := Operand Tdouble (Lit 1) in
  let x := Operand Tdouble (Lit 3) in
  Asm fdiv P1 P0 d x.

(** [long double d = __LDBL_MIN__, x = 10; asm ("fdiv %1, %0" : "+d" (d) : "d" (x));] *)
Definition raise_underflow : asm :=
  let d := Operand Tlong_double __LDBL_MIN__ in
  let x := Operand Tlong_double (Lit 10) in
  Asm fdiv P1 P0 d x.

(** [long double d = __LDBL_MAX__; asm ("fmul %0, %0" : "+d" (d) : "d" (d));] *)
Definition raise_overflow : asm :=
  let d := Operand Tlong_double __LDBL_MAX__ in
  Asm fmul P0 P0 d d.

(** [double d = 1.0, x = 0.0; asm ("fdiv %1, %0" : "+d" (d) : "d" (x));] *)
Definition raise_divzero : asm :=
  let d := Operand Tdouble (Lit 1) in
  let x := Operand Tdouble (Lit 0) in
  Asm fdiv P1 P0 d x.

(** [double d = HUGE_VAL, x = 0.0; asm ("fmul %1, %0" : "+d" (d) : "d" (x));] *)
Definition raise_invalid : asm :=
  let d := Operand Tdouble HUGE_VAL in
  let x := Operand Tdouble (Lit 0) in
  Asm fmul P1 P0 d x.

(** The statement guarded by the test of a kind's mask bit. *)
Definition trigger (k : exn) : asm :=
  match k with
  | Inexact => raise_inexact
  | Underflow => raise_underflow
  | Overflow => raise_overflow
  | DivZero => raise_divzero
  | Invalid => raise_invalid
  end.

(** The kinds in the order of their blocks in the source. *)
Definition source_order : list exn :=
  [Inexact; Underflow; Overflow; DivZero; Invalid].

(** The kinds whose block the configuration compiles in. *)
Definition supported (cfg : config) (k : exn) : bool :=
  __SH_FPU_ANY__ cfg &&
  match k with
  | Inexact | Underflow | Overflow => negb (__SH2E__ cfg)
  | DivZero | Invalid => true
  end.

(** ** The techniques of the specification

    What the table of per-kind techniques asks of a trigger, stated on the
    operation and on the values of its operands. *)

(** [x] is the integer [n], exactly. *)
Definition denotes (x : spec_float) (n : Z) : Prop :=
  match x with
  | S754_zero _ => n = 0
  | S754_finite s m e => same_dyadic (cond_Zopp s (Zpos m)) e n 0 = true
  | _ => False
  end.

(** [x] is the least positive normal number of the format. *)
Definition smallest_normal (p e : Z) (x : spec_float) : Prop :=
  valid_binary p e x = true /\ SFclassify p x = PNormal /\
  forall y, valid_binary p e y = true -> SFclassify p y = PNormal ->
            SFleb x y = true.

(** [x] is the greatest finite number of the format. *)
Definition largest_finite (p e : Z) (x : spec_float) : Prop :=
  valid_binary p e x = true /\ is_nonzero_finite x = true /\
  forall y, valid_binary p e y = true -> is_inf y = false ->
            is_nan y = false -> SFleb y x = true.

Definition follows_technique (k : exn) (i : asm) : Prop :=
  let a := lhs i in
  let b := rhs i in
  match k with
  | Inexact =>
      mnem i = fdiv /\ denotes (value a) 1 /\ denotes (value b) 3
  | Underflow =>
      mnem i = fdiv /\ op_init a = __LDBL_MIN__ /\
      smallest_normal (mant_dig (op_type a)) (max_exp (op_type a)) (value a) /\
      denotes (value b) 10 /\
      SFltb (value (Operand (op_type b) (Lit 1))) (value b) = true
  | Overflow =>
      mnem i = fmul /\ op_init a = __LDBL_MAX__ /\
      largest_finite (mant_dig (op_type a)) (max_exp (op_type a)) (value a) /\
      b = a
  | DivZero =>
      mnem i = fdiv /\ denotes (value a) 1 /\
      is_nonzero_finite (value a) = true /\ value b = S754_zero false
  | Invalid =>
      mnem i = fmul /\ value a = S754_infinity false /\
      value b = S754_zero false
  end.

(** [q] times [b] is [a], exactly and in magnitude, for nonzero finite
    numbers: [q] is the mathematical quotient of [a] by [b]. *)
Definition is_exact_quotient (q a b : spec_float) : bool :=
  match q, a, b with
  | S754_finite _ mq eq, S754_finite _ ma ea, S754_finite _ mb eb =>
      same_dyadic (Zpos mq * Zpos mb) (eq + eb) (Zpos ma) ea
  | _, _, _ => false
  end.

(** The part of a list up to and including its first element that
    satisfies [p]; the whole list if there is none. *)
Fixpoint upto {A} (p : A -> bool) (l : list A) : list A :=
  match l with
  | [] => []
  | x :: l' => if p x then [x] else x :: upto p l'
  end.

(** Two FPSCR settings with an empty log: no trap enabled, and every trap
    enabled. *)
Definition flags_only : fpu := Fpu empty empty [].
Definition all_traps : fpu := Fpu full empty [].

Section Routine.

(** The exception masks of [sfp-machine.h], which is not part of the
    source at hand. *)
Variables FP_EX_INEXACT FP_EX_UNDERFLOW FP_EX_OVERFLOW : Z.
Variables FP_EX_DIVZERO FP_EX_INVALID : Z.

(** The conditions the FPU detects when it executes an instruction. *)
Variable raises : asm -> exn_set.

(** Modelled from the spec: the reaction of the FPU, which is hardware.
    Executing one [__asm__ __volatile__] statement issues the instruction;
    the conditions it raises become status flags (sticky: a flag is set,
    never cleared); if the trap of one of them is enabled, control is
    diverted and the rest of the routine does not run.  The result the
    instruction leaves in [d] is dead. *)
Definition asm_volatile (i : asm) : M unit :=
  fun s =>
    let c := raises i in
    let s' := Fpu (enable s) (union (flag s) c) (executed s ++ [i]) in
    if is_empty (inter c (enable s)) then Returned tt s' else Trapped c s'.

(** [void __sfp_handle_exceptions (int _fex)].  On [int], [&] is [Z.land]
    (two's complement, no overflow), so [_fex] ranges over [Z]. *)
Definition __sfp_handle_exceptions (cfg : config) (_fex : Z) : M unit :=
  ifdef (__SH_FPU_ANY__ cfg)
    (ifdef (negb (__SH2E__ cfg))
       (c_if (Z.land _fex FP_EX_INEXACT) (asm_volatile raise_inexact) ;;
        c_if (Z.land _fex FP_EX_UNDERFLOW) (asm_volatile raise_underflow) ;;
        c_if (Z.land _fex FP_EX_OVERFLOW) (asm_volatile raise_overflow)) ;;
     c_if (Z.land _fex FP_EX_DIVZERO) (asm_volatile raise_divzero) ;;
     c_if (Z.land _fex FP_EX_INVALID) (asm_volatile raise_invalid)).

(** The mask constant of a kind, and whether a mask requests the kind. *)
Definition FP_EX (k : exn) : Z :=
  match k with
  | Inexact => FP_EX_INEXACT
  | Underflow => FP_EX_UNDERFLOW
  | Overflow => FP_EX_OVERFLOW
  | DivZero => FP_EX_DIVZERO
  | Invalid => FP_EX_INVALID
  end.

Definition requested (_fex : Z) (k : exn) : bool :=
  negb (Z.land _fex (FP_EX k) =? 0).

(** The kinds whose block is compiled in and whose guard holds, in
    source order. *)
Definition selected (cfg : config) (_fex : Z) : list exn :=
  filter (fun k => supported cfg k && requested _fex k) source_order.

(** Issuing a list of instructions one after the other. *)
Fixpoint issue (l : list asm) : M unit :=
  match l with
  | [] => ret tt
  | i :: l' => asm_volatile i ;; issue l'
  end.

(** The instructions a call adds to the log. *)
Definition issued_by (cfg : config) (_fex : Z) (s : fpu) : list asm :=
  skipn (length (executed s))
        (executed (final (__sfp_handle_exceptions cfg _fex s))).

(** All five recognised bits. *)
Definition FP_EX_ALL : Z :=
  Z.lor (Z.lor (Z.lor (Z.lor FP_EX_INEXACT FP_EX_UNDERFLOW) FP_EX_OVERFLOW)
               FP_EX_DIVZERO) FP_EX_INVALID.

(** Every kind has a mask of one bit, and no two kinds share a bit. *)
Definition one_bit_per_kind : Prop :=
  exists bit : exn -> Z,
    (forall k, 0 <= bit k /\ FP_EX k = 2 ^ bit k) /\
    (forall j k, bit j = bit k -> j = k).

(** Each trigger provokes the condition of its own kind and no other. *)
Definition exact_triggers : Prop :=
  forall k, raises (trigger k) = singleton k.

(** Whether an instruction raises a condition whose trap is enabled. *)
Definition traps (en : exn_set) (i : asm) : bool :=
  negb (is_empty (inter (raises i) en)).

(** All the conditions raised by a list of instructions. *)
Definition raised (l : list asm) : exn_set :=
  fold_right union empty (map raises l).

(** Read the five mask constants as [FP_EX k]. *)
Ltac by_kind :=
  change FP_EX_INEXACT with (FP_EX Inexact) in *;
  change FP_EX_UNDERFLOW with (FP_EX Underflow) in *;
  change FP_EX_OVERFLOW with (FP_EX Overflow) in *;
  change FP_EX_DIVZERO with (FP_EX DivZero) in *;
  change FP_EX_INVALID with (FP_EX Invalid) in *.

(** *** Sets of kinds *)

Lemma mem_of_pred p k : mem k (of_pred p) = p k.
Proof. destruct k; reflexivity. Qed.

Lemma exn_set_ext a b : (forall k, mem k a = mem k b) -> a = b.
Proof.
  intros H. destruct a, b.
  pose proof (H Inexact); pose proof (H Underflow); pose proof (H Overflow).
  pose proof (H DivZero); pose proof (H Invalid).
  simpl in *. congruence.
Qed.

Lemma exn_eqb_eq j k : exn_eqb j k = true <-> j = k.
Proof. destruct j, k; simpl; split; congruence. Qed.

Lemma exn_eqb_refl k : exn_eqb k k = true.
Proof. destruct k; reflexivity. Qed.

Lemma mem_singleton j k : mem j (singleton k) = exn_eqb k j.
Proof. apply mem_of_pred. Qed.

Lemma mem_union k a b : mem k (union a b) = mem k a || mem k b.
Proof. apply mem_of_pred. Qed.

Lemma singleton_inj j k : singleton j = singleton k -> j = k.
Proof.
  intros H. apply exn_eqb_eq.
  rewrite <- mem_singleton, H, mem_singleton. apply exn_eqb_refl.
Qed.

Lemma is_empty_inter_empty c : is_empty (inter c empty) = true.
Proof.
  unfold is_empty, inter, of_pred; simpl.
  now rewrite !andb_false_r.
Qed.

Lemma is_empty_inter_singleton k e :
  is_empty (inter (singleton k) e) = negb (mem k e).
Proof. destruct k; unfold is_empty; simpl; now rewrite ?orb_false_r. Qed.

Lemma union_assoc a b c : union (union a b) c = union a (union b c).
Proof.
  apply exn_set_ext; intro k. rewrite !mem_union. now rewrite orb_assoc.
Qed.

Lemma union_diag a : union a a = a.
Proof. apply exn_set_ext; intro k. rewrite mem_union. apply orb_diag. Qed.

(** *** The monad and instruction lists *)

(** The routine issues, one after the other, the triggers of the kinds it
    selects. *)
Lemma run_issue cfg m s :
  __sfp_handle_exceptions cfg m s = issue (map trigger (selected cfg m)) s.
Proof.
  destruct cfg as [[] []];
  unfold __sfp_handle_exceptions, selected, requested, supported, ifdef, c_if;
  cbn;
  repeat (match goal with
          | |- context [ ?a =? 0 ] => destruct (a =? 0)
          end; cbn);
  unfold bind, ret, asm_volatile;
  repeat (match goal with
          | |- context [if is_empty ?x then _ else _] => destruct (is_empty x)
          end; cbn);
  reflexivity.
Qed.

(** With no trap enabled every instruction of the list is issued and the
    conditions they raise accumulate in the flags. *)
Lemma issue_flags_only l : forall fl lg,
  issue l (Fpu empty fl lg) =
  Returned tt (Fpu empty (fold_left union (map raises l) fl) (lg ++ l)).
Proof.
  induction l as [|i l IH]; intros fl lg; simpl.
  - now rewrite app_nil_r.
  - unfold bind, asm_volatile; simpl enable.
    rewrite is_empty_inter_empty. simpl.
    rewrite IH, <- app_assoc. reflexivity.
Qed.

Lemma issue_prefix l : forall s,
  exists n, executed (final (issue l s)) = executed s ++ firstn n l.
Proof.
  induction l as [|i l IH]; intros s; simpl.
  - exists 0%nat. now rewrite app_nil_r.
  - unfold bind, asm_volatile.
    destruct (is_empty _).
    + destruct (IH (Fpu (enable s) (union (flag s) (raises i)) (executed s ++ [i])))
        as [n Hn].
      exists (S n). rewrite Hn. simpl. now rewrite <- app_assoc.
    + exists 1%nat. reflexivity.
Qed.

(** With exact triggers, the trap observed is that of the first issued
    kind whose trap is enabled. *)
Lemma issue_first_trap (Hx : exact_triggers) ks : forall s,
  trap_cause (issue (map trigger ks) s) =
  option_map singleton (find (fun k => mem k (enable s)) ks).
Proof.
  induction ks as [|k ks IH]; intros s; simpl; [reflexivity|].
  unfold bind, asm_volatile.
  rewrite (Hx k), is_empty_inter_singleton.
  destruct (mem k (enable s)); simpl; [reflexivity|].
  now rewrite IH.
Qed.

(** *** Mask bits *)

Lemma requested_lor a b k :
  requested (Z.lor a b) k = requested a k || requested b k.
Proof.
  unfold requested. rewrite Z.land_lor_distr_l.
  destruct (Z.eqb_spec (Z.land a (FP_EX k)) 0) as [Ha|Ha];
  destruct (Z.eqb_spec (Z.land b (FP_EX k)) 0) as [Hb|Hb];
  destruct (Z.eqb_spec (Z.lor (Z.land a (FP_EX k)) (Z.land b (FP_EX k))) 0) as [H|H];
    simpl; try reflexivity; exfalso.
  - apply H. apply Z.lor_eq_0_iff; auto.
  - apply Z.lor_eq_0_iff in H. tauto.
  - apply Z.lor_eq_0_iff in H. tauto.
  - apply Z.lor_eq_0_iff in H. tauto.
Qed.

Lemma land_all k : Z.land FP_EX_ALL (FP_EX k) = FP_EX k.
Proof.
  unfold FP_EX_ALL.
  destruct k; simpl; apply Z.bits_inj'; intros n _;
    rewrite Z.land_spec, !Z.lor_spec;
    repeat (match goal with |- context [Z.testbit ?x n] =>
              destruct (Z.testbit x n) end; simpl); reflexivity.
Qed.

Lemma requested_land_all m k :
  requested (Z.land m FP_EX_ALL) k = requested m k.
Proof.
  unfold requested. now rewrite <- Z.land_assoc, land_all.
Qed.

Lemma land_pow2_distinct a b :
  0 <= a -> 0 <= b -> a <> b -> Z.land (2 ^ a) (2 ^ b) = 0.
Proof.
  intros Ha Hb Hab. apply Z.bits_inj'; intros n Hn.
  rewrite Z.land_spec, !Z.pow2_bits_eqb, Z.bits_0 by assumption.
  destruct (Z.eqb_spec a n), (Z.eqb_spec b n); simpl; try reflexivity.
  congruence.
Qed.

Lemma requested_own_bit (H1 : one_bit_per_kind) j k :
  requested (FP_EX j) k = exn_eqb j k.
Proof.
  destruct H1 as [bit [Hb Hinj]]. unfold requested.
  destruct (Hb j) as [Hj0 Hj], (Hb k) as [Hk0 Hk].
  destruct (exn_eqb j k) eqn:E.
  - apply exn_eqb_eq in E; subst k.
    rewrite Z.land_diag, Hj.
    destruct (Z.eqb_spec (2 ^ bit j) 0) as [H|H]; [|reflexivity].
    pose proof (Z.pow_pos_nonneg 2 (bit j)). lia.
  - rewrite Hj, Hk, land_pow2_distinct; try assumption; [reflexivity|].
    intro H. apply Hinj in H. subst. now rewrite exn_eqb_refl in E.
Qed.

(** A single-bit mask is requested exactly when its bit is set. *)
Lemma requested_testbit m k b :
  0 <= b -> FP_EX k = 2 ^ b -> requested m k = Z.testbit m b.
Proof.
  intros Hb Hk. unfold requested. rewrite Hk.
  destruct (Z.testbit m b) eqn:E.
  - destruct (Z.eqb_spec (Z.land m (2 ^ b)) 0) as [H|H]; [|reflexivity].
    assert (Z.testbit (Z.land m (2 ^ b)) b = true)
      by (rewrite Z.land_spec, E, Z.pow2_bits_true; auto).
    rewrite H, Z.bits_0 in H0. discriminate.
  - replace (Z.land m (2 ^ b)) with 0; [reflexivity|].
    symmetry. apply Z.bits_inj'; intros n Hn.
    rewrite Z.land_spec, Z.pow2_bits_eqb, Z.bits_0 by assumption.
    destruct (Z.eqb_spec b n); subst; [rewrite E|]; simpl;
      now rewrite ?andb_false_r.
Qed.

(** *** What a call issues *)

Lemma trigger_inj j k : trigger j = trigger k -> j = k.
Proof. destruct j, k; simpl; intros H; try reflexivity; discriminate H. Qed.

Lemma in_source_order k : In k source_order.
Proof. destruct k; simpl; tauto. Qed.

Lemma in_selected cfg m k :
  In k (selected cfg m) <-> supported cfg k && requested m k = true.
Proof.
  unfold selected. rewrite filter_In.
  pose proof (in_source_order k). tauto.
Qed.

Lemma in_map_trigger k ks : In (trigger k) (map trigger ks) <-> In k ks.
Proof.
  rewrite in_map_iff. split.
  - intros [j [Hj Hin]]. apply trigger_inj in Hj. now subst.
  - intros H. now exists k.
Qed.

Lemma skipn_length_app {A} (l1 l2 : list A) : skipn (length l1) (l1 ++ l2) = l2.
Proof. induction l1; simpl; auto. Qed.

Lemma issued_by_flags_only cfg m fl lg :
  issued_by cfg m (Fpu empty fl lg) = map trigger (selected cfg m).
Proof.
  unfold issued_by. rewrite run_issue, issue_flags_only. simpl.
  apply skipn_length_app.
Qed.

Lemma fold_union l : forall fl,
  fold_left union l fl = union fl (fold_right union empty l).
Proof.
  induction l as [|c l IH]; intros fl; simpl.
  - apply exn_set_ext; intro k. rewrite mem_union.
    unfold empty. rewrite mem_of_pred. now rewrite orb_false_r.
  - now rewrite IH, union_assoc.
Qed.

(** C6. Without an FPU ([__SH_FPU_ANY__] undefined, whatever [__SH2E__]
    is) the call issues no instruction, leaves the FPU state as it was
    and returns, for every mask. *)
Theorem no_fpu_no_effect (sh2e : bool) (m : Z) (s : fpu) :
  __sfp_handle_exceptions (no_fpu sh2e) m s = Returned tt s.
Proof. reflexivity. Qed.

(** C9. The mask is not validated: a call behaves on any mask as on the
    mask restricted to the five recognised bits, in every configuration
    and FPU state; and when no trap is enabled the call returns to its
    caller whatever the mask. *)
Theorem unrecognised_bits_ignored (cfg : config) (m : Z) :
  (forall s,
      __sfp_handle_exceptions cfg m s =
      __sfp_handle_exceptions cfg (Z.land m FP_EX_ALL) s) /\
  (forall fl lg,
      returns (__sfp_handle_exceptions cfg m (Fpu empty fl lg)) = true).
Proof.
  split.
  - intros s. rewrite !run_issue. unfold selected.
    do 2 f_equal. apply filter_ext. intros k.
    now rewrite requested_land_all.
  - intros fl lg. now rewrite run_issue, issue_flags_only.
Qed.

(** C10. With no trap enabled, a kind's trigger is issued exactly when the
    kind is supported and its own mask test succeeds; hence the triggers
    issued for [a | b] are those issued for [a] together with those issued
    for [b], and every trigger issued for [a] is issued for [a | b]. *)
Theorem issued_triggers_lor (cfg : config) (a b : Z) (fl : exn_set)
    (lg : list asm) :
  let s := Fpu empty fl lg in
  (forall m k, In (trigger k) (issued_by cfg m s) <->
               supported cfg k && requested m k = true) /\
  (forall i, In i (issued_by cfg (Z.lor a b) s) <->
             In i (issued_by cfg a s) \/ In i (issued_by cfg b s)) /\
  incl (issued_by cfg a s) (issued_by cfg (Z.lor a b) s).
Proof.
  intros s. unfold s.
  assert (Hlor : forall i, In i (issued_by cfg (Z.lor a b) (Fpu empty fl lg)) <->
             In i (issued_by cfg a (Fpu empty fl lg)) \/
             In i (issued_by cfg b (Fpu empty fl lg))).
  { intros i. rewrite !issued_by_flags_only, !in_map_iff. split.
    - intros [k [Hk Hin]]. apply in_selected in Hin.
      rewrite requested_lor in Hin.
      apply andb_true_iff in Hin as [Hs Hr].
      apply orb_true_iff in Hr as [Hr|Hr]; [left|right];
        exists k; (split; [assumption|]);
        apply in_selected; now rewrite Hs, Hr.
    - intros [[k [Hk Hin]]|[k [Hk Hin]]]; exists k; (split; [assumption|]);
        apply in_selected; apply in_selected in Hin;
        apply andb_true_iff in Hin as [Hs Hr];
        rewrite requested_lor, Hs, Hr; simpl; auto using orb_true_r. }
  repeat split.
  - rewrite issued_by_flags_only, in_map_trigger. apply in_selected.
  - rewrite issued_by_flags_only, in_map_trigger. apply in_selected.
  - apply Hlor.
  - apply Hlor.
  - intros i Hi. apply Hlor. now left.
Qed.

(** *** Single-kind masks *)


(** C3. On the full-FPU configuration the overflow block precedes the
    divide-by-zero block: for the mask [FP_EX_DIVZERO | FP_EX_OVERFLOW],
    when the overflow trap is enabled, the call is diverted by the overflow
    trap after issuing the overflow trigger alone; the divide-by-zero
    trigger is never issued. *)
Theorem overflow_trap_precedes_divzero (H1 : one_bit_per_kind)
    (Hx : raises raise_overflow = singleton Overflow) (s : fpu)
    (He : mem Overflow (enable s) = true) :
  __sfp_handle_exceptions full_fpu (Z.lor FP_EX_DIVZERO FP_EX_OVERFLOW) s =
  Trapped (singleton Overflow)
          (Fpu (enable s) (union (flag s) (singleton Overflow))
               (executed s ++ [raise_overflow])).
Proof.
  rewrite run_issue. unfold selected.
  rewrite (filter_ext _ (fun j => exn_eqb DivZero j || exn_eqb Overflow j)).
  - simpl. unfold bind, asm_volatile.
    rewrite Hx, is_empty_inter_singleton, He. reflexivity.
  - intros j. by_kind.
    rewrite requested_lor, !requested_own_bit by assumption.
    now destruct j.
Qed.

(** *** The last trigger *)

Lemma selected_all cfg m :
  (forall k, supported cfg k = true -> requested m k = true) ->
  selected cfg m = filter (supported cfg) source_order.
Proof.
  intros H. unfold selected. apply filter_ext_in. intros k _.
  destruct (supported cfg k) eqn:E; [now rewrite H | reflexivity].
Qed.

(** C4, as the code has it.  For a mask that requests every supported kind
    on a configuration with an FPU, with triggers that raise their own
    condition only: the INVALID trigger is the last one issued, so the
    trap observed is the INVALID trap if and only if the INVALID trap is
    enabled and the trap of no other supported kind is. *)
Theorem invalid_trap_observed_iff (Hx : exact_triggers) (cfg : config)
    (m : Z) (s : fpu) (Hfpu : __SH_FPU_ANY__ cfg = true)
    (Hall : forall k, supported cfg k = true -> requested m k = true) :
  trap_cause (__sfp_handle_exceptions cfg m s) = Some (singleton Invalid) <->
  mem Invalid (enable s) = true /\
  (forall k, supported cfg k = true -> k <> Invalid ->
             mem k (enable s) = false).
Proof.
  rewrite run_issue, issue_first_trap, selected_all by assumption.
  destruct cfg as [fpu_any sh2e]. simpl in Hfpu. subst fpu_any.
  destruct s as [[eI eU eO eD eV] fl lg]. simpl.
  split.
  - intros H.
    destruct sh2e, eI, eU, eO, eD, eV; cbv in H; try discriminate H;
      (split; [reflexivity|]); intros k Hk Hne;
      destruct k; cbv in Hk; simpl; congruence.
  - intros [HV Hk]. subst eV.
    pose proof (Hk Inexact) as HI. pose proof (Hk Underflow) as HU.
    pose proof (Hk Overflow) as HO. pose proof (Hk DivZero) as HD.
    destruct sh2e; simpl in *.
    + rewrite HD by (auto; discriminate). reflexivity.
    + rewrite HI, HU, HO, HD by (auto; discriminate). reflexivity.
Qed.

(** *** The reduced FPU *)

(** C5. On the reduced-FPU configuration a mask made of INEXACT, UNDERFLOW
    and OVERFLOW bits only issues nothing and changes nothing; for any
    mask the call issues the DIVIDE-BY-ZERO and INVALID triggers whose
    mask test succeeds, in that order, and behaves exactly as the full-FPU
    configuration does on the DIVIDE-BY-ZERO and INVALID bits of the
    mask. *)
Theorem reduced_fpu_triggers (H1 : one_bit_per_kind) (m : Z) (s : fpu) :
  __sfp_handle_exceptions reduced_fpu
    (Z.land m (Z.lor (Z.lor FP_EX_INEXACT FP_EX_UNDERFLOW) FP_EX_OVERFLOW)) s
  = Returned tt s /\
  __sfp_handle_exceptions reduced_fpu m s =
  issue (map trigger (filter (requested m) [DivZero; Invalid])) s /\
  __sfp_handle_exceptions reduced_fpu m s =
  __sfp_handle_exceptions full_fpu
    (Z.land m (Z.lor FP_EX_DIVZERO FP_EX_INVALID)) s.
Proof.
  assert (Hland : forall x j k, requested (Z.land x (FP_EX j)) k
                                = requested x j && exn_eqb j k).
  { intros x j k. unfold requested at 1. rewrite <- Z.land_assoc.
    pose proof (requested_own_bit H1 j k) as Hjk. unfold requested in Hjk.
    destruct (exn_eqb j k) eqn:E.
    - apply exn_eqb_eq in E. subst k. rewrite Z.land_diag.
      now rewrite andb_true_r.
    - destruct (Z.eqb_spec (Z.land (FP_EX j) (FP_EX k)) 0) as [Hz|Hz];
        [|discriminate Hjk].
      rewrite Hz, Z.land_0_r, andb_false_r. reflexivity. }
  repeat split.
  - rewrite run_issue. unfold selected.
    rewrite (filter_ext _ (fun _ => false)); [reflexivity|].
    intros k. by_kind.
    rewrite !Z.land_lor_distr_r, !requested_lor, !Hland.
    destruct k; simpl; now rewrite ?andb_false_r.
  - rewrite run_issue. reflexivity.
  - rewrite !run_issue. unfold selected. do 2 f_equal.
    apply filter_ext. intros k. by_kind.
    rewrite !Z.land_lor_distr_r, !requested_lor, !Hland.
    destruct k; simpl; now rewrite ?andb_false_r, ?andb_true_r, ?orb_false_r.
Qed.

(** *** Sticky flags *)

Lemma second_call_flags cfg m fl lg :
  let L := map trigger (selected cfg m) in
  let s1 := Fpu empty (fold_left union (map raises L) fl) (lg ++ L) in
  __sfp_handle_exceptions cfg m (Fpu empty fl lg) = Returned tt s1 /\
  __sfp_handle_exceptions cfg m s1 =
  Returned tt (Fpu empty (flag s1) (executed s1 ++ L)).
Proof.
  intros L s1. split.
  - rewrite run_issue. apply issue_flags_only.
  - unfold s1. rewrite run_issue, issue_flags_only. fold L. simpl.
    f_equal. f_equal.
    rewrite !fold_union, union_assoc, union_diag. reflexivity.
Qed.

(** C7. With no trap enabled, calling the routine twice with the mask of a
    single kind, from any flags, leaves the status flags as the first call
    left them: both calls return, and the second sets no flag that the
    first had not set and clears none. *)
Theorem second_call_keeps_flags (cfg : config) (k : exn) (fl : exn_set)
    (lg : list asm) :
  exists s1 s2,
    __sfp_handle_exceptions cfg (FP_EX k) (Fpu empty fl lg) = Returned tt s1 /\
    __sfp_handle_exceptions cfg (FP_EX k) s1 = Returned tt s2 /\
    enable s1 = empty /\
    flag s2 = flag s1 /\
    (forall j, mem j fl = true -> mem j (flag s1) = true).
Proof.
  destruct (second_call_flags cfg (FP_EX k) fl lg) as [E1 E2].
  eexists; eexists. split; [exact E1|]. split; [exact E2|].
  repeat split. simpl. intros j Hj.
  rewrite fold_union, mem_union, Hj. reflexivity.
Qed.

(** *** Operations and operands *)

Lemma digits2_pos_bounds m :
  2 ^ (Zpos (digits2_pos m) - 1) <= Zpos m < 2 ^ Zpos (digits2_pos m).
Proof.
  induction m as [m IH|m IH|]; simpl digits2_pos.
  - rewrite Pos2Z.inj_succ.
    replace (Z.succ (Zpos (digits2_pos m)) - 1) with (Z.succ (Zpos (digits2_pos m) - 1)) by lia.
    rewrite !Z.pow_succ_r by lia. lia.
  - rewrite Pos2Z.inj_succ.
    replace (Z.succ (Zpos (digits2_pos m)) - 1) with (Z.succ (Zpos (digits2_pos m) - 1)) by lia.
    rewrite !Z.pow_succ_r by lia. lia.
  - simpl. lia.
Qed.

Lemma ldbl_min_smallest_normal :
  smallest_normal 53 1024 (value (Operand Tlong_double __LDBL_MIN__)).
Proof.
  split; [reflexivity|]. split; [reflexivity|].
  intros y Hv Hn.
  destruct y as [s|s| |s m e]; try discriminate Hn;
    try (destruct s; discriminate Hn).
  unfold SFclassify in Hn.
  destruct (Z.eqb_spec (Zpos (digits2_pos m)) 53) as [Hd|Hd];
    destruct s; try discriminate Hn.
  unfold valid_binary, bounded in Hv. apply andb_true_iff in Hv as [Hc _].
  unfold canonical_mantissa, fexp, emin in Hc.
  apply Z.eqb_eq in Hc. rewrite Hd in Hc.
  pose proof (digits2_pos_bounds m) as Hm. rewrite Hd in Hm.
  change (value (Operand Tlong_double __LDBL_MIN__))
    with (S754_finite false 4503599627370496 (-1074)).
  unfold SFleb, SFcompare.
  destruct (Z.compare_spec (-1074) e) as [He|He|He]; try reflexivity; [|lia].
  rewrite Pos.compare_cont_spec.
  destruct (Pos.compare_spec 4503599627370496 m) as [Hp|Hp|Hp];
    try reflexivity.
  change (2 ^ (53 - 1)) with 4503599627370496 in Hm.
  destruct Hm as [Hm _].
  apply Pos2Z.pos_lt_pos in Hp. clear - Hm Hp. lia.
Qed.

Lemma ldbl_max_largest_finite :
  largest_finite 53 1024 (value (Operand Tlong_double __LDBL_MAX__)).
Proof.
  split; [reflexivity|]. split; [reflexivity|].
  intros y Hv Hi Hn.
  change (value (Operand Tlong_double __LDBL_MAX__))
    with (S754_finite false 9007199254740991 971).
  destruct y as [s|s| |s m e]; try discriminate; [now destruct s|].
  destruct s; [reflexivity|].
  unfold valid_binary, bounded in Hv. apply andb_true_iff in Hv as [Hc Hb].
  unfold canonical_mantissa, fexp, emin in Hc.
  apply Z.eqb_eq in Hc. apply Z.leb_le in Hb.
  pose proof (digits2_pos_bounds m) as Hm.
  assert (Hd : Zpos (digits2_pos m) <= 53) by lia.
  assert (Hlt : Zpos m < 2 ^ 53).
  { eapply Z.lt_le_trans; [apply Hm|].
    apply Z.pow_le_mono_r; lia. }
  change (2 ^ 53) with 9007199254740992 in Hlt.
  unfold SFleb, SFcompare.
  destruct (Z.compare_spec e 971) as [He|He|He]; try reflexivity; [|lia].
  rewrite Pos.compare_cont_spec.
  destruct (Pos.compare_spec m 9007199254740991) as [Hp|Hp|Hp];
    try reflexivity.
  apply Pos2Z.pos_lt_pos in Hp. clear - Hlt Hp. lia.
Qed.

Lemma trigger_follows_technique k : follows_technique k (trigger k).
Proof.
  destruct k; unfold follows_technique.
  - repeat split.
  - split; [reflexivity|]. split; [reflexivity|].
    split; [exact ldbl_min_smallest_normal|].
    split; reflexivity.
  - split; [reflexivity|]. split; [reflexivity|].
    split; [exact ldbl_max_largest_finite | reflexivity].
  - repeat split.
  - repeat split.
Qed.

Lemma issued_by_prefix cfg m s :
  exists n, issued_by cfg m s = firstn n (map trigger (selected cfg m)).
Proof.
  unfold issued_by. rewrite run_issue.
  destruct (issue_prefix (map trigger (selected cfg m)) s) as [n Hn].
  exists n. rewrite Hn. apply skipn_length_app.
Qed.

Lemma in_firstn {A} n (l : list A) x : In x (firstn n l) -> In x l.
Proof.
  intros H. rewrite <- (firstn_skipn n l). apply in_or_app. now left.
Qed.

(** C8. Every instruction a call issues is the trigger of a kind that is
    supported and requested, and that trigger is the operation on the
    operands which the technique of its kind specifies: INEXACT divides 1
    by 3; UNDERFLOW divides [__LDBL_MIN__], the least positive normal
    number, by 10, which exceeds 1; OVERFLOW multiplies [__LDBL_MAX__],
    the greatest finite number, by itself; DIVIDE-BY-ZERO divides the
    nonzero finite 1 by +0; INVALID multiplies +infinity by +0.  With no
    trap enabled every supported and requested kind has its trigger
    issued. *)
Theorem triggers_follow_techniques (cfg : config) (m : Z) :
  (forall s i, In i (issued_by cfg m s) ->
     exists k, supported cfg k && requested m k = true /\
               i = trigger k /\ follows_technique k i) /\
  (forall fl lg k, supported cfg k && requested m k = true ->
     In (trigger k) (issued_by cfg m (Fpu empty fl lg)) /\
     follows_technique k (trigger k)).
Proof.
  split.
  - intros s i Hi.
    destruct (issued_by_prefix cfg m s) as [n Hn]. rewrite Hn in Hi.
    apply in_firstn, in_map_iff in Hi. destruct Hi as [k [Hk Hin]].
    exists k. subst i. apply in_selected in Hin.
    auto using trigger_follows_technique.
  - intros fl lg k Hk. split; [|apply trigger_follows_technique].
    rewrite issued_by_flags_only, in_map_trigger. now apply in_selected.
Qed.

(** *** The outcome of a call in any FPU state *)

Lemma union_empty_r a : union a empty = a.
Proof.
  apply exn_set_ext; intro k. rewrite mem_union. unfold empty.
  rewrite mem_of_pred. apply orb_false_r.
Qed.

Lemma returns_iff_no_trap {A} (o : outcome A) :
  returns o = true <-> trap_cause o = None.
Proof. destruct o; simpl; split; intros H; (reflexivity || discriminate H). Qed.

Lemma find_none_iff {A} (p : A -> bool) l :
  find p l = None <-> forall x, In x l -> p x = false.
Proof.
  induction l as [|x l IH]; simpl.
  - split; [intros _ y [] | reflexivity].
  - destruct (p x) eqn:E.
    + split; [discriminate|]. intros H. rewrite (H x) in E by now left.
      discriminate E.
    + rewrite IH. split.
      * intros H y [<-|Hy]; auto.
      * intros H y Hy. apply H. now right.
Qed.

Lemma upto_prefix {A} (p : A -> bool) l : exists n, upto p l = firstn n l.
Proof.
  induction l as [|x l [n IH]]; simpl.
  - now exists 0%nat.
  - destruct (p x); [now exists 1%nat|]. exists (S n). simpl. now rewrite IH.
Qed.

Lemma issue_outcome l : forall s,
  executed (final (issue l s)) = executed s ++ upto (traps (enable s)) l /\
  trap_cause (issue l s) = option_map raises (find (traps (enable s)) l) /\
  flag (final (issue l s))
  = union (flag s) (raised (upto (traps (enable s)) l)) /\
  enable (final (issue l s)) = enable s.
Proof.
  induction l as [|i l IH]; intros s; simpl.
  - rewrite app_nil_r. unfold raised; simpl. now rewrite union_empty_r.
  - unfold bind, asm_volatile, traps at 1 3 5.
    destruct (is_empty (inter (raises i) (enable s))); simpl.
    + destruct (IH (Fpu (enable s) (union (flag s) (raises i))
                        (executed s ++ [i]))) as [He [Ht [Hf Hn]]].
      simpl in He, Ht, Hf, Hn.
      rewrite He, Ht, Hf, Hn, <- app_assoc. unfold raised; simpl.
      now rewrite union_assoc.
    + unfold raised; simpl. now rewrite union_empty_r.
Qed.

Lemma issued_by_upto cfg m s :
  issued_by cfg m s = upto (traps (enable s)) (map trigger (selected cfg m)).
Proof.
  unfold issued_by. rewrite run_issue.
  destruct (issue_outcome (map trigger (selected cfg m)) s) as [He _].
  rewrite He. apply skipn_length_app.
Qed.

(** In any FPU state and for any conditions the FPU raises, a call issues
    the triggers of the supported and requested kinds, in source order, up
    to and including the first one that raises a condition whose trap is
    enabled; that instruction's conditions are the cause of the trap; the
    conditions of all the instructions issued are added to the flags; and
    the call returns exactly when none of those triggers raises an enabled
    condition. *)
Theorem call_outcome (cfg : config) (m : Z) (s : fpu) :
  let o := __sfp_handle_exceptions cfg m s in
  let L := map trigger
             (filter (fun k => supported cfg k && requested m k)
                     [Inexact; Underflow; Overflow; DivZero; Invalid]) in
  issued_by cfg m s = upto (traps (enable s)) L /\
  trap_cause o = option_map raises (find (traps (enable s)) L) /\
  flag (final o) = union (flag s) (raised (issued_by cfg m s)) /\
  (returns o = true <-> forall i, In i L -> traps (enable s) i = false).
Proof.
  intros o L.
  assert (HL : L = map trigger (selected cfg m)) by reflexivity.
  assert (Ho : o = issue L s) by (unfold o; now rewrite run_issue, HL).
  destruct (issue_outcome L s) as [He [Ht [Hf Hn]]].
  split; [rewrite HL; apply issued_by_upto|].
  split; [now rewrite Ho|].
  split.
  - rewrite issued_by_upto, <- HL, Ho. exact Hf.
  - rewrite returns_iff_no_trap, Ho, Ht, <- find_none_iff.
    destruct (find (traps (enable s)) L); simpl; split; congruence.
Qed.

(** When every trigger raises its own condition only, the trap observed is
    that of the first kind, in the order INEXACT, UNDERFLOW, OVERFLOW,
    DIVIDE-BY-ZERO, INVALID, that is supported, requested and has its trap
    enabled; the call returns exactly when there is no such kind. *)
Theorem first_enabled_kind_traps (Hx : exact_triggers) (cfg : config)
    (m : Z) (s : fpu) :
  let o := __sfp_handle_exceptions cfg m s in
  trap_cause o =
  option_map singleton
    (find (fun k => mem k (enable s))
          (filter (fun k => supported cfg k && requested m k)
                  [Inexact; Underflow; Overflow; DivZero; Invalid])) /\
  (returns o = true <->
   forall k, supported cfg k && requested m k = true ->
             mem k (enable s) = false).
Proof.
  intros o.
  assert (Ht : trap_cause o =
               option_map singleton
                 (find (fun k => mem k (enable s)) (selected cfg m)))
    by (unfold o; now rewrite run_issue, issue_first_trap).
  split; [exact Ht|].
  rewrite returns_iff_no_trap, Ht.
  destruct (find (fun k => mem k (enable s)) (selected cfg m)) eqn:E; simpl.
  - split; [discriminate|]. intros H.
    apply find_some in E as [Hin He]. apply in_selected in Hin.
    rewrite (H e Hin) in He. discriminate He.
  - split; [|reflexivity]. intros _ k Hk.
    apply (proj1 (find_none_iff _ _) E). now apply in_selected.
Qed.

(** A call never changes the trap-enable bits, never clears a status flag
    and never removes an entry from the log, whatever the configuration,
    the mask, the FPU state and the conditions the FPU raises. *)
Theorem call_frame (cfg : config) (m : Z) (s : fpu) :
  let s' := final (__sfp_handle_exceptions cfg m s) in
  enable s' = enable s /\
  (forall j, mem j (flag s) = true -> mem j (flag s') = true) /\
  firstn (length (executed s)) (executed s') = executed s.
Proof.
  intros s'. unfold s'. rewrite run_issue.
  destruct (issue_outcome (map trigger (selected cfg m)) s)
    as [He [_ [Hf Hn]]].
  split; [exact Hn|]. split.
  - intros j Hj. now rewrite Hf, mem_union, Hj.
  - rewrite He, firstn_app, Nat.sub_diag, firstn_all. simpl.
    apply app_nil_r.
Qed.

Lemma NoDup_map_trigger ks : NoDup ks -> NoDup (map trigger ks).
Proof.
  induction 1 as [|k ks Hk Hnd IH]; simpl; constructor; [|exact IH].
  now rewrite in_map_trigger.
Qed.

(** A call issues no trigger twice, and at most five instructions on the
    full FPU, two on the reduced FPU and none without an FPU. *)
Theorem issued_bounds (cfg : config) (m : Z) (s : fpu) :
  NoDup (issued_by cfg m s) /\
  (length (issued_by cfg m s) <=
   if __SH_FPU_ANY__ cfg then if __SH2E__ cfg then 2 else 5 else 0)%nat.
Proof.
  rewrite issued_by_upto.
  destruct (upto_prefix (traps (enable s)) (map trigger (selected cfg m)))
    as [n Hn].
  rewrite Hn. split.
  - assert (Hnd : NoDup (map trigger (selected cfg m))).
    { apply NoDup_map_trigger. unfold selected. apply NoDup_filter.
      repeat constructor; simpl; intuition discriminate. }
    rewrite <- (firstn_skipn n) in Hnd. now apply NoDup_app_remove_r in Hnd.
  - rewrite length_firstn.
    etransitivity; [apply Nat.le_min_r|]. rewrite length_map.
    unfold selected.
    destruct cfg as [[] []]; simpl;
      destruct (requested m Inexact), (requested m Underflow),
        (requested m Overflow), (requested m DivZero),
        (requested m Invalid); simpl; lia.
Qed.

(** What a call issues, whether it traps and with what cause depend on the
    trap-enable bits only: not on the status flags already set, nor on what
    was executed before. *)
Theorem outcome_ignores_flags_and_log (cfg : config) (m : Z)
    (en fl fl' : exn_set) (lg lg' : list asm) :
  let o := __sfp_handle_exceptions cfg m (Fpu en fl lg) in
  let o' := __sfp_handle_exceptions cfg m (Fpu en fl' lg') in
  issued_by cfg m (Fpu en fl lg) = issued_by cfg m (Fpu en fl' lg') /\
  trap_cause o = trap_cause o' /\
  returns o = returns o'.
Proof.
  intros o o'. unfold o, o'.
  split; [now rewrite !issued_by_upto|].
  assert (Ht : trap_cause (__sfp_handle_exceptions cfg m (Fpu en fl lg)) =
               trap_cause (__sfp_handle_exceptions cfg m (Fpu en fl' lg'))).
  { rewrite !run_issue.
    destruct (issue_outcome (map trigger (selected cfg m)) (Fpu en fl lg))
      as [_ [H1 _]].
    destruct (issue_outcome (map trigger (selected cfg m)) (Fpu en fl' lg'))
      as [_ [H2 _]].
    now rewrite H1, H2. }
  split; [exact Ht|].
  destruct (__sfp_handle_exceptions cfg m (Fpu en fl lg)),
           (__sfp_handle_exceptions cfg m (Fpu en fl' lg'));
    simpl in *; (reflexivity || discriminate Ht).
Qed.

(** *** Masks with no or with every recognised bit *)

(** A mask that shares no bit with the five mask constants, the zero mask
    among them, makes the call a no-operation in every configuration and
    FPU state. *)
Theorem unrecognised_mask_noop (cfg : config) (m : Z) (s : fpu)
    (H : Z.land m FP_EX_ALL = 0) :
  __sfp_handle_exceptions cfg m s = Returned tt s.
Proof.
  rewrite run_issue. unfold selected.
  rewrite (filter_ext _ (fun _ => false)); [reflexivity|].
  intros k. rewrite <- requested_land_all. unfold requested.
  now rewrite H, Z.land_0_l, andb_false_r.
Qed.

(** When no mask constant is zero, a mask that contains every bit of the
    five constants (all-ones, for one) requests every kind: with no trap
    enabled the call issues the trigger of every supported kind, in source
    order. *)
Theorem full_mask_issues_all_supported (Hnz : forall k, FP_EX k <> 0)
    (cfg : config) (m : Z) (H : Z.land m FP_EX_ALL = FP_EX_ALL)
    (fl : exn_set) (lg : list asm) :
  issued_by cfg m (Fpu empty fl lg) =
  map trigger
      (filter (supported cfg) [Inexact; Underflow; Overflow; DivZero; Invalid]).
Proof.
  rewrite issued_by_flags_only. f_equal. apply selected_all.
  intros k _. rewrite <- requested_land_all. unfold requested.
  rewrite H, land_all.
  destruct (Z.eqb_spec (FP_EX k) 0) as [E|E]; [now apply Hnz in E|reflexivity].
Qed.

(** *** Flags of successive calls *)

Lemma mem_raised_kinds j ks :
  mem j (fold_right union empty (map raises (map trigger ks))) =
  existsb (fun k => mem j (raises (trigger k))) ks.
Proof.
  induction ks as [|k ks IH]; simpl.
  - unfold empty. apply mem_of_pred.
  - now rewrite mem_union, IH.
Qed.

Lemma existsb_selected_lor f cfg a b :
  existsb f (selected cfg (Z.lor a b)) =
  existsb f (selected cfg a) || existsb f (selected cfg b).
Proof.
  unfold selected. induction source_order as [|k l IH]; simpl; [reflexivity|].
  rewrite requested_lor.
  destruct (supported cfg k), (requested a k), (requested b k); simpl;
    rewrite IH; destruct (f k); simpl; try reflexivity;
    destruct (existsb f (filter (fun k0 => supported cfg k0 && requested a k0) l)),
             (existsb f (filter (fun k0 => supported cfg k0 && requested b k0) l));
    reflexivity.
Qed.

Lemma flags_after_call cfg m fl lg j :
  mem j (flag (final (__sfp_handle_exceptions cfg m (Fpu empty fl lg)))) =
  mem j fl || existsb (fun k => mem j (raises (trigger k))) (selected cfg m).
Proof.
  rewrite run_issue, issue_flags_only. simpl.
  now rewrite fold_union, mem_union, mem_raised_kinds.
Qed.

(** With no trap enabled, for any conditions the FPU raises: two calls
    with the masks [a] and [b], one after the other and in either order,
    leave the status flags that one call with [a | b] leaves; in
    particular a second call with the same mask, of one kind or of
    several, leaves the flags as they are. *)
Theorem flags_of_successive_calls (cfg : config) (a b : Z) (fl : exn_set)
    (lg : list asm) :
  let s := Fpu empty fl lg in
  let after m s := final (__sfp_handle_exceptions cfg m s) in
  flag (after b (after a s)) = flag (after (Z.lor a b) s) /\
  flag (after a (after b s)) = flag (after b (after a s)) /\
  flag (after a (after a s)) = flag (after a s).
Proof.
  intros s after.
  assert (Hs : forall m f l, after m (Fpu empty f l) =
                 Fpu empty (flag (after m (Fpu empty f l)))
                     (executed (after m (Fpu empty f l)))).
  { intros m f l. unfold after. now rewrite run_issue, issue_flags_only. }
  assert (H2 : forall x y, flag (after y (after x s)) = flag (after (Z.lor x y) s)).
  { intros x y. apply exn_set_ext; intro j. unfold s.
    rewrite (Hs x fl lg). unfold after at 1 4.
    rewrite !flags_after_call, existsb_selected_lor. fold (after x (Fpu empty fl lg)).
    unfold after. rewrite flags_after_call. now rewrite orb_assoc. }
  split; [apply H2|]. split.
  - now rewrite !H2, Z.lor_comm.
  - now rewrite H2, Z.lor_diag.
Qed.

(** With no trap enabled and triggers that raise their own condition
    only, a call sets the status flag of exactly the kinds that are
    supported and requested, and leaves every other flag as it was. *)
Theorem flags_set_for_requested_kinds (Hx : exact_triggers) (cfg : config)
    (m : Z) (fl : exn_set) (lg : list asm) (j : exn) :
  mem j (flag (final (__sfp_handle_exceptions cfg m (Fpu empty fl lg)))) =
  mem j fl || (supported cfg j && requested m j).
Proof.
  rewrite flags_after_call. f_equal.
  destruct (supported cfg j && requested m j) eqn:E.
  - apply existsb_exists. exists j. split; [now apply in_selected|].
    now rewrite Hx, mem_singleton, exn_eqb_refl.
  - destruct (existsb _ _) eqn:Ex; [|reflexivity].
    apply existsb_exists in Ex as [k [Hin Hk]].
    rewrite Hx, mem_singleton in Hk. apply exn_eqb_eq in Hk. subst k.
    apply in_selected in Hin. congruence.
Qed.

(** *** The sequence of triggers, with and without traps *)

Lemma requested_true_iff m k :
  requested m k = true <-> Z.land m (FP_EX k) <> 0.
Proof. unfold requested. now rewrite negb_true_iff, Z.eqb_neq. Qed.

Lemma upto_incl {A} (p : A -> bool) l x : In x (upto p l) -> In x l.
Proof.
  destruct (upto_prefix p l) as [n Hn]. rewrite Hn. apply in_firstn.
Qed.

Lemma upto_app {A} (p : A -> bool) l1 l2 :
  upto p (l1 ++ l2) = if existsb p l1 then upto p l1 else l1 ++ upto p l2.
Proof.
  induction l1 as [|x l1 IH]; simpl; [reflexivity|].
  destruct (p x); simpl; [reflexivity|].
  rewrite IH. now destruct (existsb p l1).
Qed.

Lemma upto_head {A} (p : A -> bool) x l : In x (upto p (x :: l)).
Proof. simpl. destruct (p x); now left. Qed.

(** In a duplicate-free order, the trigger of [k] is issued exactly when
    [k] is selected and no selected kind before it traps. *)
Lemma in_upto_selected (r : exn -> bool) (p : asm -> bool) pre k post :
  NoDup (pre ++ k :: post) ->
  In (trigger k) (upto p (map trigger (filter r (pre ++ k :: post)))) <->
  r k = true /\
  forall j, In j pre -> r j = true -> p (trigger j) = false.
Proof.
  intros Hnd. apply NoDup_remove_2 in Hnd.
  assert (Hpre : ~ In k pre) by (intro; apply Hnd, in_or_app; now left).
  assert (Hpost : ~ In k post) by (intro; apply Hnd, in_or_app; now right).
  rewrite filter_app, map_app, upto_app.
  destruct (existsb p (map trigger (filter r pre))) eqn:E.
  - split.
    + intros H. apply upto_incl, in_map_trigger, filter_In in H. tauto.
    + intros [_ H]. apply existsb_exists in E as [i [Hi Hp]].
      apply in_map_iff in Hi as [j [<- Hj]]. apply filter_In in Hj as [Hj Hr].
      rewrite (H j Hj Hr) in Hp. discriminate Hp.
  - assert (Hnone : forall j, In j pre -> r j = true -> p (trigger j) = false).
    { intros j Hj Hr. destruct (p (trigger j)) eqn:Hp; [|reflexivity].
      assert (Ex : existsb p (map trigger (filter r pre)) = true).
      { apply existsb_exists. exists (trigger j). split; [|exact Hp].
        apply in_map, filter_In. now split. }
      rewrite E in Ex. discriminate Ex. }
    simpl filter. destruct (r k) eqn:Rk.
    + split; [now split|]. intros _. apply in_or_app. right. apply upto_head.
    + split; [|intros [H _]; discriminate H].
      intros H. apply in_app_or in H as [H|H].
      * apply in_map_trigger, filter_In in H. tauto.
      * apply upto_incl, in_map_trigger, filter_In in H. tauto.
Qed.

(** C1, as the code has it.  On the full-FPU configuration, in every FPU
    state, the instructions a call executes are the triggers of the kinds
    whose mask bit is set, taken in the order INEXACT, UNDERFLOW, OVERFLOW,
    DIVIDE-BY-ZERO, INVALID, up to and including the first one that raises
    a condition whose trap is enabled, and nothing else.  So a kind's
    trigger is executed if and only if its bit is set and no trigger
    executed before it trapped; with no trap enabled every kind whose bit
    is set has its trigger executed, and the call returns. *)
Theorem trigger_sequence_until_trap (m : Z) (s : fpu) :
  let order := [Inexact; Underflow; Overflow; DivZero; Invalid] in
  let L := map trigger (filter (requested m) order) in
  let o := __sfp_handle_exceptions full_fpu m s in
  executed (final o) = executed s ++ upto (traps (enable s)) L /\
  (forall k pre post, order = pre ++ k :: post ->
     (In (trigger k) (issued_by full_fpu m s) <->
      Z.land m (FP_EX k) <> 0 /\
      forall j, In j pre -> Z.land m (FP_EX j) <> 0 ->
                traps (enable s) (trigger j) = false)) /\
  (forall fl lg,
      __sfp_handle_exceptions full_fpu m (Fpu empty fl lg) =
      Returned tt
        (Fpu empty (fold_left union (map raises L) fl) (lg ++ L))) /\
  (forall k b, 0 <= b -> FP_EX k = 2 ^ b ->
               (In (trigger k) L <-> Z.testbit m b = true)).
Proof.
  intros order L o.
  assert (HL : L = map trigger (selected full_fpu m)) by reflexivity.
  split; [|split; [|split]].
  - unfold o. rewrite run_issue, <- HL.
    now destruct (issue_outcome L s) as [He _].
  - intros k pre post Hsplit.
    rewrite issued_by_upto, <- HL. unfold L. rewrite Hsplit.
    rewrite in_upto_selected.
    + rewrite requested_true_iff. split; intros [Hk Hpre]; (split; [exact Hk|]);
        intros j Hj Hr; apply Hpre; try assumption;
        now apply requested_true_iff.
    + rewrite <- Hsplit. unfold order.
      repeat constructor; simpl; intuition discriminate.
  - intros fl lg. rewrite run_issue, HL. apply issue_flags_only.
  - intros k b Hb Hk. rewrite HL, in_map_trigger, in_selected.
    rewrite <- (requested_testbit m k b Hb Hk). now destruct k.
Qed.

(** *** The mask of a single kind *)


End Routine.

(** ** Instances

    The theorems above hold for any masks and any FPU.  They are
    instantiated here at one bit per kind (bits 2 to 6) and at the FPU that
    raises the condition of [ieee_condition]. *)

Lemma sample_one_bit_per_kind : one_bit_per_kind 4 8 16 32 64.
Proof.
  exists (fun k => match k with
                   | Inexact => 2 | Underflow => 3 | Overflow => 4
                   | DivZero => 5 | Invalid => 6
                   end).
  split.
  - intros k. destruct k; simpl; split; (lia || reflexivity).
  - intros j k. destruct j, k; simpl; intros H; (reflexivity || discriminate H).
Qed.

(** Each trigger provokes, by [ieee_condition], the condition of its kind:
    1/3 is inexact, [__LDBL_MIN__]/10 falls below the normal range,
    [__LDBL_MAX__] squared exceeds the range, 1/0 is a division by zero and
    infinity times 0 is invalid. *)
Lemma ieee_exact_triggers : exact_triggers ieee_raises.
Proof. intros k. destruct k; vm_compute; reflexivity. Qed.

Lemma overflow_trap_precedes_divzero_witness :
  ieee_raises raise_overflow = singleton Overflow /\
  mem Overflow (enable all_traps) = true /\
  __sfp_handle_exceptions 4 8 16 32 64 ieee_raises full_fpu (Z.lor 32 16)
    all_traps
  = Trapped (singleton Overflow)
            (Fpu full (union empty (singleton Overflow)) [raise_overflow]).
Proof.
  split; [vm_compute; reflexivity|]. split; [reflexivity|].
  apply (overflow_trap_precedes_divzero 4 8 16 32 64 ieee_raises
           sample_one_bit_per_kind).
  - vm_compute; reflexivity.
  - reflexivity.
Defined.

Lemma invalid_trap_observed_iff_witness :
  __SH_FPU_ANY__ full_fpu = true /\
  (forall k, supported full_fpu k = true ->
             requested 4 8 16 32 64 124 k = true) /\
  (trap_cause (__sfp_handle_exceptions 4 8 16 32 64 ieee_raises full_fpu 124
                (Fpu (singleton Invalid) empty []))
  = Some (singleton Invalid) <->
  mem Invalid (singleton Invalid) = true /\
  (forall k, supported full_fpu k = true -> k <> Invalid ->
             mem k (singleton Invalid) = false)).
Proof.
  assert (Hall : forall k, supported full_fpu k = true ->
                           requested 4 8 16 32 64 124 k = true)
    by (intros k _; destruct k; reflexivity).
  split; [reflexivity|]. split; [exact Hall|].
  apply (invalid_trap_observed_iff 4 8 16 32 64 ieee_raises
           ieee_exact_triggers full_fpu 124
           (Fpu (singleton Invalid) empty []) eq_refl Hall).
Defined.

Lemma reduced_fpu_triggers_witness :
  __sfp_handle_exceptions 4 8 16 32 64 ieee_raises reduced_fpu
    (Z.land 28 (Z.lor (Z.lor 4 8) 16)) flags_only
  = Returned tt flags_only /\
  __sfp_handle_exceptions 4 8 16 32 64 ieee_raises reduced_fpu 28 flags_only =
  issue ieee_raises
    (map trigger (filter (requested 4 8 16 32 64 28) [DivZero; Invalid]))
    flags_only /\
  __sfp_handle_exceptions 4 8 16 32 64 ieee_raises reduced_fpu 28 flags_only =
  __sfp_handle_exceptions 4 8 16 32 64 ieee_raises full_fpu
    (Z.land 28 (Z.lor 32 64)) flags_only.
Proof.
  exact (reduced_fpu_triggers 4 8 16 32 64 ieee_raises
           sample_one_bit_per_kind 28 flags_only).
Defined.

(** C4, as stated, fails.  With every trap enabled and every supported kind
    requested, the trap observed is that of the first trigger issued:
    INEXACT on the full FPU (mask 124) and DIVIDE-BY-ZERO on the reduced FPU
    (mask 96); in neither case is it the INVALID trap. *)
Lemma all_kinds_trap_is_not_invalid :
  let full_run :=
    __sfp_handle_exceptions 4 8 16 32 64 ieee_raises full_fpu 124 all_traps in
  let reduced_run :=
    __sfp_handle_exceptions 4 8 16 32 64 ieee_raises reduced_fpu 96 all_traps in
  (trap_cause full_run = Some (singleton Inexact) /\
   executed (final full_run) = [raise_inexact] /\
   trap_cause full_run <> Some (singleton Invalid)) /\
  (trap_cause reduced_run = Some (singleton DivZero) /\
   executed (final reduced_run) = [raise_divzero] /\
   trap_cause reduced_run <> Some (singleton Invalid)).
Proof.
  vm_compute. repeat split; discriminate.
Qed.

(** ** The arithmetic of the triggers *)

(** An odd factor of a power of two is 1 or -1. *)
Lemma pow2_odd_factor n : 0 <= n ->
  forall a b, a * b = 2 ^ n -> Z.odd b = true -> b = 1 \/ b = -1.
Proof.
  intros Hn. pattern n. apply natlike_ind; [| |exact Hn]; clear n Hn.
  - intros a b H _. change (2 ^ 0) with 1 in H.
    rewrite Z.mul_comm in H. apply Z.mul_eq_1 in H. exact H.
  - intros n Hn IH a b H Hb.
    rewrite Z.pow_succ_r in H by assumption.
    assert (Ha : Z.odd a = false).
    { assert (Hab : Z.odd (a * b) = false)
        by (rewrite H, Z.odd_mul; reflexivity).
      rewrite Z.odd_mul, Hb, andb_true_r in Hab. exact Hab. }
    rewrite <- Z.negb_even, negb_false_iff in Ha.
    apply Z.even_spec in Ha as [a' Ha]. subst a.
    apply (IH a' b); [|exact Hb].
    rewrite <- Z.mul_assoc in H. lia.
Qed.

(** No dyadic number times a multiple of an odd [d > 1] is a power of
    two. *)
Lemma odd_divisor_not_dyadic mq c d k e1 e2 :
  0 <= k -> Z.odd d = true -> 1 < d ->
  same_dyadic (mq * (c * d)) e1 (2 ^ k) e2 = false.
Proof.
  intros Hk Hd Hd1. unfold same_dyadic. apply Z.eqb_neq. intros H.
  set (x := e1 - Z.min e1 e2) in H. set (y := e2 - Z.min e1 e2) in H.
  assert (Hx : 0 <= x) by (unfold x; lia).
  assert (Hy : 0 <= y) by (unfold y; lia).
  rewrite <- Z.pow_add_r in H by assumption.
  destruct (pow2_odd_factor (k + y) ltac:(lia) (mq * c * 2 ^ x) d) as [E|E];
    [|exact Hd|lia|lia].
  rewrite <- H. ring.
Qed.

(** The quotients of the INEXACT and the UNDERFLOW trigger are no binary
    floating-point numbers, of any precision and exponent range: 3 times a
    dyadic number is never 1, and 10 times a dyadic number is never
    [__LDBL_MIN__].  Both divisions are therefore inexact in every rounding
    mode, and the second remains below the least normal number. *)
Theorem division_triggers_are_inexact (q : spec_float) :
  is_exact_quotient q (value (lhs raise_inexact)) (value (rhs raise_inexact))
  = false /\
  is_exact_quotient q (value (lhs raise_underflow))
                    (value (rhs raise_underflow)) = false /\
  SFltb (result raise_underflow) (value (lhs raise_underflow)) = true.
Proof.
  change (value (lhs raise_inexact))
    with (S754_finite false 4503599627370496 (-52)).
  change (value (rhs raise_inexact))
    with (S754_finite false 6755399441055744 (-51)).
  change (value (lhs raise_underflow))
    with (S754_finite false 4503599627370496 (-1074)).
  change (value (rhs raise_underflow))
    with (S754_finite false 5629499534213120 (-49)).
  split; [|split]; [| |vm_compute; reflexivity].
  - destruct q as [s|s| |s m e]; try reflexivity. unfold is_exact_quotient.
    change (Zpos 6755399441055744) with (2251799813685248 * 3).
    change (Zpos 4503599627370496) with (2 ^ 52).
    apply odd_divisor_not_dyadic; [lia | reflexivity | lia].
  - destruct q as [s|s| |s m e]; try reflexivity. unfold is_exact_quotient.
    change (Zpos 5629499534213120) with (1125899906842624 * 5).
    change (Zpos 4503599627370496) with (2 ^ 52).
    apply odd_divisor_not_dyadic; [lia | reflexivity | lia].
Qed.

(** In binary64 arithmetic with rounding to nearest, each trigger provokes
    the condition of its own kind: 1/3 is rounded to a normal number,
    [__LDBL_MIN__]/10 is rounded to a subnormal number, [__LDBL_MAX__]
    squared overflows to +infinity, 1/0 is +infinity from a nonzero finite
    dividend, and +infinity times 0 is not a number. *)
Theorem triggers_provoke_their_condition :
  (forall k, ieee_condition (trigger k) = Some k) /\
  (is_normal 53 (result raise_inexact) = true /\
   exact raise_inexact = false) /\
  (is_nonzero_finite (result raise_underflow) = true /\
   is_normal 53 (result raise_underflow) = false /\
   exact raise_underflow = false) /\
  (is_nonzero_finite (value (lhs raise_overflow)) = true /\
   result raise_overflow = S754_infinity false) /\
  (is_nonzero_finite (value (lhs raise_divzero)) = true /\
   is_zero (value (rhs raise_divzero)) = true /\
   result raise_divzero = S754_infinity false) /\
  (is_inf (value (lhs raise_invalid)) = true /\
   is_zero (value (rhs raise_invalid)) = true /\
   result raise_invalid = S754_nan).
Proof.
  split; [intros k; destruct k; vm_compute; reflexivity|].
  vm_compute. repeat split.
Qed.

(** ** Further instances *)

Lemma first_enabled_kind_traps_witness :
  let s := Fpu (ExnSet false false true false true) empty [] in
  let o := __sfp_handle_exceptions 4 8 16 32 64 ieee_raises full_fpu 124 s in
  trap_cause o =
  option_map singleton
    (find (fun k => mem k (enable s))
          (filter (fun k => supported full_fpu k
                            && requested 4 8 16 32 64 124 k)
                  [Inexact; Underflow; Overflow; DivZero; Invalid])) /\
  (returns o = true <->
   forall k, supported full_fpu k && requested 4 8 16 32 64 124 k = true ->
             mem k (enable s) = false).
Proof.
  exact (first_enabled_kind_traps 4 8 16 32 64 ieee_raises
           ieee_exact_triggers full_fpu 124
           (Fpu (ExnSet false false true false true) empty [])).
Defined.

Lemma unrecognised_mask_noop_witness :
  Z.land 131 (FP_EX_ALL 4 8 16 32 64) = 0 /\
  __sfp_handle_exceptions 4 8 16 32 64 ieee_raises full_fpu 131 all_traps
  = Returned tt all_traps.
Proof.
  split; [reflexivity|].
  apply (unrecognised_mask_noop 4 8 16 32 64 ieee_raises full_fpu 131
           all_traps).
  reflexivity.
Defined.

Lemma full_mask_issues_all_supported_witness :
  (forall k, FP_EX 4 8 16 32 64 k <> 0) /\
  Z.land (-1) (FP_EX_ALL 4 8 16 32 64) = FP_EX_ALL 4 8 16 32 64 /\
  issued_by 4 8 16 32 64 ieee_raises reduced_fpu (-1) flags_only =
  map trigger
      (filter (supported reduced_fpu)
              [Inexact; Underflow; Overflow; DivZero; Invalid]).
Proof.
  assert (Hnz : forall k, FP_EX 4 8 16 32 64 k <> 0)
    by (intros k; destruct k; discriminate).
  split; [exact Hnz|]. split; [reflexivity|].
  apply (full_mask_issues_all_supported 4 8 16 32 64 ieee_raises Hnz
           reduced_fpu (-1)).
  reflexivity.
Defined.

Lemma flags_set_for_requested_kinds_witness :
  mem Overflow
      (flag (final (__sfp_handle_exceptions 4 8 16 32 64 ieee_raises
                      full_fpu 48 flags_only))) =
  mem Overflow empty || (supported full_fpu Overflow
                         && requested 4 8 16 32 64 48 Overflow).
Proof.
  exact (flags_set_for_requested_kinds 4 8 16 32 64 ieee_raises
           ieee_exact_triggers full_fpu 48 empty [] Overflow).
Defined.

(** ** Single-kind masks on the IEEE FPU *)




(** C1, as stated, fails when a trap fires.  On the full FPU with every
    trap enabled and the mask 48 (DIVIDE-BY-ZERO and OVERFLOW), the
    DIVIDE-BY-ZERO bit (bit 5) is set, yet the only instruction executed is
    the overflow trigger: the divide-by-zero trigger is not executed. *)
Lemma trap_skips_requested_trigger :
  let o := __sfp_handle_exceptions 4 8 16 32 64 ieee_raises full_fpu 48
             all_traps in
  Z.testbit 48 5 = true /\
  Z.land 48 32 <> 0 /\
  executed (final o) = [raise_overflow] /\
  ~ In raise_divzero (executed (final o)).
Proof.
  vm_compute. repeat split; try discriminate.
  intros [H|[]]. discriminate H.
Qed.

